(** * ALX Polly: access control, voting and validation of the server actions

    A shallow embedding of the server actions of the polling application
    (auth-actions.ts, poll-actions.ts and the admin page) together with the
    properties its specification states about them.

    The actions are asynchronous functions that talk to two remote services
    through the Supabase client: the identity provider ([auth.getUser],
    [auth.signUp]) and the relational store (tables [polls] and [votes]).
    They are embedded as computations in a state monad over a [World] that
    holds the state of both services; every result object of the source
    ([{ error }], [{ poll, error }], [{ polls, error }]) is a record with the
    same fields, [null] being [None]. *)

From Stdlib Require Import ZArith NArith String Ascii List Lia.
From stdpp Require Import base decidable option list strings sorting pretty.

Local Open Scope string_scope.
Local Open Scope Z_scope.

(** ** JavaScript values *)

Module Js.

(** A JavaScript string is a sequence of UTF-16 code units; [length] counts
    code units and a regular expression without the [u] flag matches code
    units.  The password is kept in this form because its length and its
    characters are inspected; identifiers, e-mails and messages, which are
    only compared or passed on, are [string]s. *)
Definition code_unit := N.
Definition jsstring := list code_unit.

Definition units (s : string) : jsstring :=
  map N_of_ascii (list_ascii_of_string s).

(** The values a JSON metadata field may hold, as far as [!==] against a
    string literal can tell them apart. *)
Inductive value :=
| Undefined
| Null
| Bool (b : bool)
| Num (z : Z)
| Str (s : string).

(** [v !== s] for a string literal [s]: strict inequality, no coercion. *)
Definition strict_ne_str (v : value) (s : string) : bool :=
  match v with
  | Str t => negb (String.eqb t s)
  | _ => true
  end.

(** [!s] for [s : string | null]: null and the empty string are falsy. *)
Definition falsy (s : option string) : bool :=
  match s with
  | None => true
  | Some t => String.eqb t ""
  end.

(** [Boolean(s)] for a string. *)
Definition truthy (s : string) : bool := negb (String.eqb s "").

End Js.

(** ** The zod string schema *)

Module Zod.
Import Js.

(** The character classes of the source's regular expressions: a list of
    inclusive ranges, possibly negated ([[^...]]). *)
Record char_class := {
  negated : bool;
  ranges : list (ascii * ascii)
}.

Definition in_range (c : code_unit) (r : ascii * ascii) : bool :=
  (N_of_ascii (fst r) <=? c)%N && (c <=? N_of_ascii (snd r))%N.

Definition class_matches (cls : char_class) (c : code_unit) : bool :=
  xorb (negated cls) (existsb (in_range c) (ranges cls)).

(** [re.test(s)] for a regular expression that is a single character class:
    some code unit of [s] is in the class. *)
Definition regex_test (cls : char_class) (s : jsstring) : bool :=
  existsb (class_matches cls) s.

Inductive check :=
| min (n : nat) (message : string)
| regex (re : char_class) (message : string).

(** [z.string()] followed by its checks, in the order they were chained. *)
Definition ZodString := list check.

Record ZodIssue := { message : string }.

(** One check against the input: the issue it raises, if any. *)
Definition run_check (s : jsstring) (c : check) : option ZodIssue :=
  match c with
  | min n msg =>
      if (length s <? n)%nat then Some {| message := msg |} else None
  | regex re msg =>
      if regex_test re s then None else Some {| message := msg |}
  end.

(** Every check is run, and the issues are collected in the order of the
    checks (zod does not stop at the first failing check). *)
Definition issues (schema : ZodString) (s : jsstring) : list ZodIssue :=
  omap (run_check s) schema.

(** [safeParse]: success, or the non-empty list of issues, [errors[0]]
    first. *)
Inductive SafeParseResult :=
| Success (data : jsstring)
| Failure (first : ZodIssue) (rest : list ZodIssue).

Definition safeParse (schema : ZodString) (s : jsstring) : SafeParseResult :=
  match issues schema s with
  | [] => Success s
  | e :: es => Failure e es
  end.

Definition success (r : SafeParseResult) : bool :=
  match r with Success _ => true | Failure _ _ => false end.

(** [result.error.errors[0].message] of a failed parse. *)
Definition first_message (r : SafeParseResult) : option string :=
  match r with Success _ => None | Failure first _ => Some (message first) end.

End Zod.

(** ** The password schema (auth-actions.ts) *)

Definition lowercase : Zod.char_class :=
  {| Zod.negated := false; Zod.ranges := [("a", "z")]%char |}.
Definition uppercase : Zod.char_class :=
  {| Zod.negated := false; Zod.ranges := [("A", "Z")]%char |}.
Definition digit : Zod.char_class :=
  {| Zod.negated := false; Zod.ranges := [("0", "9")]%char |}.
Definition special : Zod.char_class :=
  {| Zod.negated := true;
     Zod.ranges := [("a", "z"); ("A", "Z"); ("0", "9")]%char |}.

Definition msg_length := "Password must be at least 8 characters long.".
Definition msg_lowercase :=
  "Password must contain at least one lowercase letter.".
Definition msg_uppercase :=
  "Password must contain at least one uppercase letter.".
Definition msg_digit := "Password must contain at least one number.".
Definition msg_special :=
  "Password must contain at least one special character.".

Definition passwordSchema : Zod.ZodString :=
  [ Zod.min 8 msg_length;
    Zod.regex lowercase msg_lowercase;
    Zod.regex uppercase msg_uppercase;
    Zod.regex digit msg_digit;
    Zod.regex special msg_special ].

(** ** The remote services behind the Supabase client *)

Module User.
(** The authenticated user as the actions read it: [user.id] and
    [user.user_metadata.role]. *)
Record t := {
  id : string;
  role : Js.value
}.
End User.

Module AuthResponse.
(** The answer of [auth.getUser()]: [{ data: { user }, error }]. *)
Record t := {
  user : option User.t;
  error : option string
}.
End AuthResponse.

(** [PollSettings] of lib/types/index.ts. *)
Record PollSettings := {
  allowMultipleVotes : bool;
  requireAuthentication : bool
}.

Module Poll.
(** A row of the [polls] table.  The actions write [user_id], [question]
    and [options]; [id] and [created_at] are filled in by the store.  The
    last two columns are the ones the access rules of the specification
    speak about (a poll's public status and its settings); no action reads
    or writes them, they only come back with [select("*")]. *)
Record t := {
  id : string;
  user_id : string;
  question : string;
  options : list string;
  created_at : Z;
  is_public : bool;
  settings : PollSettings
}.
End Poll.

Module Vote.
(** A row of the [votes] table; [user_id] is null for an anonymous vote. *)
Record t := {
  id : string;
  poll_id : string;
  user_id : option string;
  option_index : Z;
  created_at : Z
}.
End Vote.

Module SignUp.
(** The argument of [auth.signUp]. *)
Record t := {
  email : string;
  password : Js.jsstring;
  name : string
}.
End SignUp.

Module Response.
(** The answer of a table query: [{ data, error }]. *)
Record t (A : Type) := {
  data : option A;
  error : option string
}.
Arguments data {A} _.
Arguments error {A} _.
Definition ok {A} (a : A) : t A := {| data := Some a; error := None |}.
Definition failed {A} (e : string) : t A := {| data := None; error := Some e |}.
End Response.

Module Supabase.

(** The state of the services and of the page cache.

    - [session] is what the identity provider answers to [auth.getUser()]
      for the current request: the principal.
    - [signUp_calls] logs every request the identity provider received
      through [auth.signUp], oldest first.
    - [polls] and [votes] are the tables; [serial] and [clock] feed the
      generated columns.
    - The declaration of the [votes] table is not part of the repository.
      [votes_unique] says whether it was created with a uniqueness
      constraint over [(poll_id, user_id)] for non-null [user_id]; the
      README's schema lists none.
    - [fault] is [Some e] while the store is unreachable: every table query
      then answers with the error [e] and has no effect.
    - [revalidated] logs the paths passed to [revalidatePath]. *)
Record World := {
  session : AuthResponse.t;
  signUp_calls : list SignUp.t;
  polls : list Poll.t;
  votes : list Vote.t;
  votes_unique : bool;
  serial : N;
  clock : Z;
  fault : option string;
  revalidated : list string
}.

Definition set_signUp_calls (l : list SignUp.t) (w : World) : World :=
  {| session := session w; signUp_calls := l; polls := polls w;
     votes := votes w; votes_unique := votes_unique w; serial := serial w;
     clock := clock w; fault := fault w; revalidated := revalidated w |}.

Definition set_polls (l : list Poll.t) (w : World) : World :=
  {| session := session w; signUp_calls := signUp_calls w; polls := l;
     votes := votes w; votes_unique := votes_unique w; serial := serial w;
     clock := clock w; fault := fault w; revalidated := revalidated w |}.

Definition set_votes (l : list Vote.t) (w : World) : World :=
  {| session := session w; signUp_calls := signUp_calls w; polls := polls w;
     votes := l; votes_unique := votes_unique w; serial := serial w;
     clock := clock w; fault := fault w; revalidated := revalidated w |}.

Definition set_revalidated (l : list string) (w : World) : World :=
  {| session := session w; signUp_calls := signUp_calls w; polls := polls w;
     votes := votes w; votes_unique := votes_unique w; serial := serial w;
     clock := clock w; fault := fault w; revalidated := l |}.

(** The store fills a generated column: the next key is handed out and the
    clock moves on. *)
Definition tick (w : World) : World :=
  {| session := session w; signUp_calls := signUp_calls w; polls := polls w;
     votes := votes w; votes_unique := votes_unique w;
     serial := N.succ (serial w); clock := Z.succ (clock w);
     fault := fault w; revalidated := revalidated w |}.

(** An awaited call: it reads and updates the world and yields a value. *)
Definition Action (A : Type) : Type := World → A * World.

#[global] Instance action_ret : MRet Action := λ A a w, (a, w).
#[global] Instance action_bind : MBind Action :=
  λ A B k m w, let '(a, w') := m w in k a w'.

Definition run {A} (m : Action A) (w : World) : A * World := m w.
Definition result {A} (m : Action A) (w : World) : A := fst (m w).
Definition after {A} (m : Action A) (w : World) : World := snd (m w).

(** *** Identity provider *)

(** [supabase.auth.getUser()] *)
Definition auth_getUser : Action AuthResponse.t :=
  λ w, (session w, w).

(** [supabase.auth.signUp(...)]: the request reaches the provider, which
    refuses an e-mail address it has already seen.  The value is
    [error?.message]. *)
Definition auth_signUp (req : SignUp.t) : Action (option string) :=
  λ w,
    let seen :=
      bool_decide (SignUp.email req ∈ SignUp.email <$> signUp_calls w) in
    (if seen then Some "User already registered" else None,
     set_signUp_calls (signUp_calls w ++ [req]) w).

(** *** The [polls] table *)

(** [.order("created_at", { ascending: false })] *)
Definition newest_first (p q : Poll.t) : Prop :=
  Poll.created_at q ≤ Poll.created_at p.

#[global] Instance newest_first_dec p q : Decision (newest_first p q).
Proof. unfold newest_first. apply _. Defined.

(** [from("polls").insert([{ user_id, question, options }])]; the value is
    [error?.message].  The store fills in the key and the time stamp; the
    columns no action writes take the defaults of the specification (not
    public, authentication not required, one vote per voter). *)
Definition polls_insert (user_id question : string) (options : list string)
  : Action (option string) :=
  λ w,
    match fault w with
    | Some e => (Some e, w)
    | None =>
        let row :=
          {| Poll.id := pretty (serial w);
             Poll.user_id := user_id;
             Poll.question := question;
             Poll.options := options;
             Poll.created_at := clock w;
             Poll.is_public := false;
             Poll.settings :=
               {| allowMultipleVotes := false;
                  requireAuthentication := false |} |} in
        (None, tick (set_polls (polls w ++ [row]) w))
    end.

(** [from("polls").select("*")] with the [.eq] filters [P], ordered by
    [created_at] descending. *)
Definition polls_select_ordered (P : Poll.t → Prop) `{∀ p, Decision (P p)}
  : Action (Response.t (list Poll.t)) :=
  λ w,
    match fault w with
    | Some e => (Response.failed e, w)
    | None =>
        (Response.ok (merge_sort newest_first (filter P (polls w))), w)
    end.

(** [from("polls").select("*")] with the [.eq] filters [P], then
    [.single()]: exactly one row must match. *)
Definition polls_select_single (P : Poll.t → Prop) `{∀ p, Decision (P p)}
  : Action (Response.t Poll.t) :=
  λ w,
    match fault w with
    | Some e => (Response.failed e, w)
    | None =>
        match filter P (polls w) with
        | [p] => (Response.ok p, w)
        | _ =>
            (Response.failed
               "JSON object requested, multiple (or no) rows returned", w)
        end
    end.

(** [from("polls").delete()] with the [.eq] filters [P]: the matching rows
    are removed; matching no row is not an error. *)
Definition polls_delete (P : Poll.t → Prop) `{∀ p, Decision (P p)}
  : Action (option string) :=
  λ w,
    match fault w with
    | Some e => (Some e, w)
    | None => (None, set_polls (filter (λ p, ¬ P p) (polls w)) w)
    end.

(** [from("polls").update({ question, options })] with the [.eq] filters
    [P]: the two columns of the matching rows are overwritten; matching no
    row is not an error. *)
Definition write (question : string) (options : list string) (p : Poll.t)
  : Poll.t :=
  {| Poll.id := Poll.id p;
     Poll.user_id := Poll.user_id p;
     Poll.question := question;
     Poll.options := options;
     Poll.created_at := Poll.created_at p;
     Poll.is_public := Poll.is_public p;
     Poll.settings := Poll.settings p |}.

Definition polls_update (question : string) (options : list string)
    (P : Poll.t → Prop) `{∀ p, Decision (P p)} : Action (option string) :=
  λ w,
    match fault w with
    | Some e => (Some e, w)
    | None =>
        (None,
         set_polls
           ((λ p, if decide (P p) then write question options p else p)
              <$> polls w) w)
    end.

(** *** The [votes] table *)

(** The uniqueness constraint, where the table has one: a row with a
    non-null [user_id] clashes with an earlier row of the same poll and
    user. *)
Definition clashes (poll_id : string) (user_id : option string)
    (v : Vote.t) : bool :=
  match user_id with
  | None => false
  | Some u =>
      bool_decide (Vote.poll_id v = poll_id ∧ Vote.user_id v = Some u)
  end.

(** [from("votes").insert([{ poll_id, user_id, option_index }])]; the value
    is [error?.message]. *)
Definition votes_insert (poll_id : string) (user_id : option string)
    (option_index : Z) : Action (option string) :=
  λ w,
    match fault w with
    | Some e => (Some e, w)
    | None =>
        if votes_unique w && existsb (clashes poll_id user_id) (votes w)
        then (Some "duplicate key value violates unique constraint", w)
        else
          let row :=
            {| Vote.id := pretty (serial w);
               Vote.poll_id := poll_id;
               Vote.user_id := user_id;
               Vote.option_index := option_index;
               Vote.created_at := clock w |} in
          (None, tick (set_votes (votes w ++ [row]) w))
    end.

(** *** The page cache *)

(** [revalidatePath(path)] *)
Definition revalidatePath (path : string) : Action () :=
  λ w, ((), set_revalidated (revalidated w ++ [path]) w).

End Supabase.


(** ** Results of the server actions *)

Module Result.
(** [{ error }] *)
Record t := { error : option string }.
Definition ok : t := {| error := None |}.
Definition failed (e : string) : t := {| error := Some e |}.
End Result.

Module PollsResult.
(** [{ polls, error }] *)
Record t := { polls : list Poll.t; error : option string }.
End PollsResult.

Module PollResult.
(** [{ poll, error }] *)
Record t := { poll : option Poll.t; error : option string }.
End PollResult.

(** ** auth-actions.ts *)

Module RegisterFormData.
Record t := {
  name : string;
  email : string;
  password : Js.jsstring
}.
End RegisterFormData.

Import Supabase.

Definition register (data : RegisterFormData.t) : Action Result.t :=
  match Zod.safeParse passwordSchema (RegisterFormData.password data) with
  | Zod.Failure first _ => mret (Result.failed (Zod.message first))
  | Zod.Success _ =>
      error ← auth_signUp
        {| SignUp.email := RegisterFormData.email data;
           SignUp.password := RegisterFormData.password data;
           SignUp.name := RegisterFormData.name data |};
      match error with
      | Some e => mret (Result.failed e)
      | None => mret Result.ok
      end
  end.

(** ** poll-actions.ts *)

(** The submitted form: its entries in order, each a field name and a string
    value. *)
Definition FormData := list (string * string).

(** [formData.get(name)]: the first value of the field, or null. *)
Definition get (formData : FormData) (name : string) : option string :=
  snd <$> head (filter (λ e, fst e = name) formData).

(** [formData.getAll(name)] *)
Definition getAll (formData : FormData) (name : string) : list string :=
  snd <$> filter (λ e, fst e = name) formData.

Definition msg_invalid_poll :=
  "Please provide a question and at least two options.".

(** The check that opens [createPoll] and [updatePoll]:
    [!question || options.length < 2], where [options] is
    [formData.getAll("options").filter(Boolean)]. *)
Definition rejected (question : option string) (options : list string)
  : bool :=
  Js.falsy question || (length options <? 2)%nat.

Definition createPoll (formData : FormData) : Action Result.t :=
  let question := get formData "question" in
  let options := List.filter Js.truthy (getAll formData "options") in
  if rejected question options then mret (Result.failed msg_invalid_poll)
  else
    r ← auth_getUser;
    match AuthResponse.error r with
    | Some userError => mret (Result.failed userError)
    | None =>
        match AuthResponse.user r with
        | None =>
            mret (Result.failed "You must be logged in to create a poll.")
        | Some user =>
            error ← polls_insert (User.id user) (default "" question) options;
            match error with
            | Some e => mret (Result.failed e)
            | None => _ ← revalidatePath "/polls"; mret Result.ok
            end
        end
    end.

Definition getUserPolls : Action PollsResult.t :=
  r ← auth_getUser;
  match AuthResponse.user r with
  | None =>
      mret {| PollsResult.polls := [];
              PollsResult.error := Some "Not authenticated" |}
  | Some user =>
      q ← polls_select_ordered (λ p, Poll.user_id p = User.id user);
      match Response.error q with
      | Some e =>
          mret {| PollsResult.polls := []; PollsResult.error := Some e |}
      | None =>
          mret {| PollsResult.polls := default [] (Response.data q);
                  PollsResult.error := None |}
      end
  end.

Definition getPollById (id : string) : Action PollResult.t :=
  q ← polls_select_single (λ p, Poll.id p = id);
  match Response.error q with
  | Some e => mret {| PollResult.poll := None; PollResult.error := Some e |}
  | None =>
      mret {| PollResult.poll := Response.data q; PollResult.error := None |}
  end.

Definition submitVote (pollId : string) (optionIndex : Z) : Action Result.t :=
  r ← auth_getUser;
  let user := AuthResponse.user r in
  error ← votes_insert pollId (User.id <$> user) optionIndex;
  match error with
  | Some e => mret (Result.failed e)
  | None => mret Result.ok
  end.

Definition deletePoll (id : string) : Action Result.t :=
  error ← polls_delete (λ p, Poll.id p = id);
  match error with
  | Some e => mret (Result.failed e)
  | None => _ ← revalidatePath "/polls"; mret Result.ok
  end.

Definition updatePoll (pollId : string) (formData : FormData)
  : Action Result.t :=
  let question := get formData "question" in
  let options := List.filter Js.truthy (getAll formData "options") in
  if rejected question options then mret (Result.failed msg_invalid_poll)
  else
    r ← auth_getUser;
    match AuthResponse.error r with
    | Some userError => mret (Result.failed userError)
    | None =>
        match AuthResponse.user r with
        | None =>
            mret (Result.failed "You must be logged in to update a poll.")
        | Some user =>
            error ← polls_update (default "" question) options
              (λ p, Poll.id p = pollId ∧ Poll.user_id p = User.id user);
            match error with
            | Some e => mret (Result.failed e)
            | None => mret Result.ok
            end
        end
    end.

(** ** app/(dashboard)/admin/page.tsx *)

(** What the page does with the request: [redirect(path)] ends the rendering
    and sends the browser to [path]; otherwise the admin dashboard is
    rendered. *)
Inductive Page :=
| redirect (path : string)
| AdminDashboardClient.

Definition AdminPage : Action Page :=
  r ← auth_getUser;
  match AuthResponse.user r with
  | None => mret (redirect "/login")
  | Some user =>
      if Js.strict_ne_str (User.role user) "admin"
      then mret (redirect "/polls")
      else mret AdminDashboardClient
  end.

(** ** The specification's policy and validation rules

    The definitions of this module follow the words of the specification,
    not the source: they are what the server actions are compared with. *)

Module Spec.

(** The principal of a request: the signed-in user, or anonymous. *)
Definition Principal := option User.t.

Definition principal (w : World) : Principal :=
  AuthResponse.user (session w).

(** [canRead]: the poll is public, or the principal owns it. *)
Definition canRead (u : Principal) (p : Poll.t) : bool :=
  Poll.is_public p
  || from_option (λ x, bool_decide (User.id x = Poll.user_id p)) false u.

(** [canMutate]: the principal owns the poll. *)
Definition canMutate (u : Principal) (p : Poll.t) : bool :=
  from_option (λ x, bool_decide (User.id x = Poll.user_id p)) false u.


(** [validateOptionIndex]: [0 <= index < len(poll.options)]. *)
Definition validOptionIndex (p : Poll.t) (index : Z) : Prop :=
  0 ≤ index < Z.of_nat (length (Poll.options p)).

(** [isAdmin]: the role claim is exactly ["admin"]. *)
Definition isAdmin (x : User.t) : Prop := User.role x = Js.Str "admin".

#[global] Instance value_eq_dec : EqDecision Js.value.
Proof. solve_decision. Defined.

(** [routeAdmin] *)
Inductive Routing := Authorized | RedirectTo (target : string).

Definition routeAdmin (u : Principal) : Routing :=
  match u with
  | None => RedirectTo "/login"
  | Some x => if decide (isAdmin x) then Authorized else RedirectTo "/polls"
  end.

(** The decision a rendering of the admin page amounts to. *)
Definition decision (page : Page) : Routing :=
  match page with
  | redirect path => RedirectTo path
  | AdminDashboardClient => Authorized
  end.

(** *** Password rules *)

Inductive rule := Length | Lowercase | Uppercase | Digit | Special.

Definition lowercase_letter (c : Js.code_unit) : Prop := (97 ≤ c ≤ 122)%N.
Definition uppercase_letter (c : Js.code_unit) : Prop := (65 ≤ c ≤ 90)%N.
Definition decimal_digit (c : Js.code_unit) : Prop := (48 ≤ c ≤ 57)%N.
Definition non_alphanumeric (c : Js.code_unit) : Prop :=
  ¬ (lowercase_letter c ∨ uppercase_letter c ∨ decimal_digit c).

Definition satisfies (candidate : Js.jsstring) (r : rule) : Prop :=
  match r with
  | Length => (8 ≤ length candidate)%nat
  | Lowercase => Exists lowercase_letter candidate
  | Uppercase => Exists uppercase_letter candidate
  | Digit => Exists decimal_digit candidate
  | Special => Exists non_alphanumeric candidate
  end.

#[global] Instance satisfies_dec candidate r : Decision (satisfies candidate r).
Proof.
  destruct r; unfold satisfies, lowercase_letter, uppercase_letter,
    decimal_digit, non_alphanumeric, lowercase_letter, uppercase_letter,
    decimal_digit; apply _.
Defined.

(** The fixed order in which the rules are reported. *)
Definition rule_order : list rule :=
  [Length; Lowercase; Uppercase; Digit; Special].

Definition rule_message (r : rule) : string :=
  match r with
  | Length => msg_length
  | Lowercase => msg_lowercase
  | Uppercase => msg_uppercase
  | Digit => msg_digit
  | Special => msg_special
  end.

(** [validatePassword]: the message of the first failing rule, if any. *)
Definition validatePassword (candidate : Js.jsstring) : option string :=
  rule_message <$> head (filter (λ r, ¬ satisfies candidate r) rule_order).

(** *** Poll input rules *)





End Spec.

(** ** The scenario of the specification

    User [u1] owns poll [p1] ("Best color?", two options), which is not
    public, requires authentication and does not allow multiple votes; [u2]
    is another user. *)

Definition signed_in (id : string) : AuthResponse.t :=
  {| AuthResponse.user := Some {| User.id := id; User.role := Js.Undefined |};
     AuthResponse.error := None |}.

Definition anonymous : AuthResponse.t :=
  {| AuthResponse.user := None;
     AuthResponse.error := Some "Auth session missing!" |}.

Definition p1 : Poll.t :=
  {| Poll.id := "p1";
     Poll.user_id := "u1";
     Poll.question := "Best color?";
     Poll.options := ["Red"; "Blue"];
     Poll.created_at := 100;
     Poll.is_public := false;
     Poll.settings :=
       {| allowMultipleVotes := false; requireAuthentication := true |} |}.

(** The world of the scenario, seen by the principal [s]; the [votes] table
    carries no uniqueness constraint. *)
Definition scenario (s : AuthResponse.t) : World :=
  {| session := s;
     signUp_calls := [];
     polls := [p1];
     votes := [];
     votes_unique := false;
     serial := 7;
     clock := 200;
     fault := None;
     revalidated := [] |}.

(** A form with the given question and options. *)
Definition form (question : string) (options : list string) : FormData :=
  ("question", question) :: ((λ o, ("options", o)) <$> options).


(** ** Further actions and schemas

    [getCurrentUser] of auth-actions.ts, and the password field of
    [loginFormSchema] in lib/types/index.ts (the [email] fields of the form
    schemas go through zod's e-mail pattern, which is not modelled). *)

Definition getCurrentUser : Action (option User.t) :=
  r ← auth_getUser;
  mret (AuthResponse.user r).

Definition msg_empty_password := "Password cannot be empty.".

Definition loginFormSchema_password : Zod.ZodString :=
  [ Zod.min 1 msg_empty_password ].

(** The scenario while the store cannot be reached. *)
Definition unreachable (w : World) : World :=
  {| session := session w; signUp_calls := signUp_calls w; polls := polls w;
     votes := votes w; votes_unique := votes_unique w; serial := serial w;
     clock := clock w; fault := Some "fetch failed";
     revalidated := revalidated w |}.

(** * Properties *)

(** ** Password validation *)

Section character_classes.
Import Zod.

Lemma regex_test_Exists (cls : char_class) (P : Js.code_unit → Prop)
    `{∀ c, Decision (P c)} (s : Js.jsstring) :
  (∀ c, class_matches cls c = true ↔ P c) →
  regex_test cls s = bool_decide (Exists P s).
Proof.
  intros Hcls. unfold regex_test.
  induction s as [|c s IH]; cbn [existsb].
  - symmetry. apply bool_decide_eq_false. by intros ?%Exists_nil.
  - rewrite IH. apply eq_true_iff_eq.
    rewrite orb_true_iff, !bool_decide_eq_true, Exists_cons, Hcls.
    done.
Qed.

Lemma in_range_iff c lo hi :
  in_range c (lo, hi) = true ↔ (N_of_ascii lo ≤ c ≤ N_of_ascii hi)%N.
Proof. unfold in_range. by rewrite andb_true_iff, !N.leb_le. Qed.

Lemma lowercase_matches c :
  class_matches lowercase c = true ↔ Spec.lowercase_letter c.
Proof.
  unfold class_matches, lowercase; cbn [negated ranges existsb xorb].
  by rewrite orb_false_r, in_range_iff.
Qed.

Lemma uppercase_matches c :
  class_matches uppercase c = true ↔ Spec.uppercase_letter c.
Proof.
  unfold class_matches, uppercase; cbn [negated ranges existsb xorb].
  by rewrite orb_false_r, in_range_iff.
Qed.

Lemma digit_matches c :
  class_matches digit c = true ↔ Spec.decimal_digit c.
Proof.
  unfold class_matches, digit; cbn [negated ranges existsb xorb].
  by rewrite orb_false_r, in_range_iff.
Qed.

Lemma special_matches c :
  class_matches special c = true ↔ Spec.non_alphanumeric c.
Proof.
  unfold class_matches, special; cbn [negated ranges existsb].
  rewrite xorb_true_l, orb_false_r, negb_true_iff, <- not_true_iff_false.
  by rewrite !orb_true_iff, !in_range_iff.
Qed.

End character_classes.

(** The issue a check of the schema raises is the message of the rule it
    stands for, raised exactly when the rule fails. *)
Lemma passwordSchema_issues candidate :
  Zod.message <$> Zod.issues passwordSchema candidate
  = Spec.rule_message <$>
      filter (λ r, ¬ Spec.satisfies candidate r) Spec.rule_order.
Proof.
  unfold Zod.issues, passwordSchema, Spec.rule_order; simpl.
  rewrite (regex_test_Exists _ _ _ lowercase_matches),
    (regex_test_Exists _ _ _ uppercase_matches),
    (regex_test_Exists _ _ _ digit_matches),
    (regex_test_Exists _ _ _ special_matches).
  rewrite !filter_cons, filter_nil.
  destruct (Nat.ltb_spec (length candidate) 8);
    repeat case_bool_decide; repeat case_decide;
    simpl in *; try done; try lia; try (exfalso; tauto).
Qed.

Lemma first_message_issues schema candidate :
  Zod.first_message (Zod.safeParse schema candidate)
  = head (Zod.message <$> Zod.issues schema candidate).
Proof. unfold Zod.safeParse. by destruct (Zod.issues schema candidate). Qed.

Lemma success_first_message r :
  Zod.success r = true ↔ Zod.first_message r = None.
Proof. by destruct r. Qed.

Lemma safeParse_password candidate :
  Zod.first_message (Zod.safeParse passwordSchema candidate)
  = Spec.validatePassword candidate.
Proof.
  rewrite first_message_issues, passwordSchema_issues.
  unfold Spec.validatePassword.
  by destruct (filter _ Spec.rule_order).
Qed.

Lemma validatePassword_None candidate :
  Spec.validatePassword candidate = None ↔ ∀ r, Spec.satisfies candidate r.
Proof.
  unfold Spec.validatePassword. rewrite fmap_None, head_None.
  split.
  - intros Hnil r.
    destruct (decide (Spec.satisfies candidate r)) as [|Hr]; [done|].
    exfalso. eapply (filter_nil_not_elem_of _ _ r Hnil Hr).
    unfold Spec.rule_order. destruct r; repeat constructor.
  - intros Hall. apply elem_of_nil_inv. intros r Hr.
    apply list_elem_of_filter in Hr as [Hr _]. by apply Hr.
Qed.

(** ** Registration *)

Lemma register_invalid data w :
  Zod.success
    (Zod.safeParse passwordSchema (RegisterFormData.password data)) = false →
  ∃ m,
    Spec.validatePassword (RegisterFormData.password data) = Some m
    ∧ run (register data) w = (Result.failed m, w).
Proof.
  intros Hfail. rewrite <- safeParse_password. unfold register.
  destruct (Zod.safeParse _ _) as [|first rest]; [done|].
  by exists (Zod.message first).
Qed.

(** A password that passes is handed to the identity provider: the sign-up
    request is issued, with the submitted e-mail, password and name. *)
Lemma register_valid data w :
  Zod.success
    (Zod.safeParse passwordSchema (RegisterFormData.password data)) = true →
  signUp_calls (after (register data) w)
  = (signUp_calls w ++
       [{| SignUp.email := RegisterFormData.email data;
           SignUp.password := RegisterFormData.password data;
           SignUp.name := RegisterFormData.name data |}])%list.
Proof.
  intros Hok. unfold after, register.
  destruct (Zod.safeParse _ _) as [|first rest]; [|done].
  unfold mbind, action_bind, auth_signUp.
  by destruct (bool_decide _).
Qed.

(** A password that passes is handed to the identity provider and the
    provider's answer is the result; one that fails is answered with the
    first issue, the provider not being called. *)
Lemma register_run data w :
  run (register data) w
  = match Spec.validatePassword (RegisterFormData.password data) with
    | Some m => (Result.failed m, w)
    | None =>
        let '(error, w') :=
          auth_signUp
            {| SignUp.email := RegisterFormData.email data;
               SignUp.password := RegisterFormData.password data;
               SignUp.name := RegisterFormData.name data |} w in
        ({| Result.error := error |}, w')
    end.
Proof.
  rewrite <- safeParse_password. unfold run, register.
  destruct (Zod.safeParse _ _) as [|first rest]; cbn [Zod.first_message];
    [|done].
  unfold mbind, action_bind, mret, action_ret.
  by destruct (auth_signUp _ w) as [[e|] w'].
Qed.

(** C7. Password validation at registration succeeds exactly when the
    candidate satisfies all five rules (at least 8 characters, a lowercase
    letter, an uppercase letter, a digit, a non-alphanumeric character), and
    when it fails the message it yields is that of the first failing rule in
    the order length, lowercase, uppercase, digit, special; "short1!" fails
    on length, "alllowercase1!" on the uppercase rule, and "Strong1Pass!"
    passes.  This holds of the schema and of [register], which runs it:
    [register] goes on to the sign-up request exactly when all five rules
    hold, and otherwise returns the message of the first failing rule as its
    error. *)
Theorem passwordSchema_first_failing_rule :
  (∀ candidate,
     (Zod.success (Zod.safeParse passwordSchema candidate) = true
      ↔ ∀ r, Spec.satisfies candidate r)
     ∧ Zod.first_message (Zod.safeParse passwordSchema candidate)
       = Spec.rule_message <$>
           head (filter (λ r, ¬ Spec.satisfies candidate r)
                   [Spec.Length; Spec.Lowercase; Spec.Uppercase;
                    Spec.Digit; Spec.Special]))
  ∧ Zod.first_message (Zod.safeParse passwordSchema (Js.units "short1!"))
    = Some "Password must be at least 8 characters long."
  ∧ Zod.first_message
      (Zod.safeParse passwordSchema (Js.units "alllowercase1!"))
    = Some "Password must contain at least one uppercase letter."
  ∧ Zod.success (Zod.safeParse passwordSchema (Js.units "Strong1Pass!"))
    = true
  ∧ (∀ data w,
       (signUp_calls (after (register data) w)
        = (signUp_calls w ++
             [{| SignUp.email := RegisterFormData.email data;
                 SignUp.password := RegisterFormData.password data;
                 SignUp.name := RegisterFormData.name data |}])%list
        ↔ ∀ r, Spec.satisfies (RegisterFormData.password data) r)
       ∧ run (register data) w
         = match
             head (filter
                     (λ r, ¬ Spec.satisfies (RegisterFormData.password data) r)
                     [Spec.Length; Spec.Lowercase; Spec.Uppercase;
                      Spec.Digit; Spec.Special])
           with
           | Some r => (Result.failed (Spec.rule_message r), w)
           | None =>
               let '(error, w') :=
                 auth_signUp
                   {| SignUp.email := RegisterFormData.email data;
                      SignUp.password := RegisterFormData.password data;
                      SignUp.name := RegisterFormData.name data |} w in
               ({| Result.error := error |}, w')
           end)
  ∧ (∀ name email w,
       result
         (register {| RegisterFormData.name := name;
                      RegisterFormData.email := email;
                      RegisterFormData.password := Js.units "short1!" |}) w
       = Result.failed "Password must be at least 8 characters long."
       ∧ result
           (register {| RegisterFormData.name := name;
                        RegisterFormData.email := email;
                        RegisterFormData.password :=
                          Js.units "alllowercase1!" |}) w
         = Result.failed
             "Password must contain at least one uppercase letter."
       ∧ signUp_calls
           (after
              (register {| RegisterFormData.name := name;
                           RegisterFormData.email := email;
                           RegisterFormData.password :=
                             Js.units "Strong1Pass!" |}) w)
         = (signUp_calls w ++
              [{| SignUp.email := email;
                  SignUp.password := Js.units "Strong1Pass!";
                  SignUp.name := name |}])%list).
Proof.
  split_and!; try (by vm_compute).
  - intros candidate. split.
    + by rewrite success_first_message, safeParse_password,
        validatePassword_None.
    + apply safeParse_password.
  - intros data w. split.
    + rewrite <- validatePassword_None. split.
      * intros Hcalls.
        destruct (Spec.validatePassword _) as [m|] eqn:Hm; [|done].
        pose proof (register_run data w) as Hrun. rewrite Hm in Hrun.
        unfold run in Hrun. unfold after in Hcalls. rewrite Hrun in Hcalls.
        simpl in Hcalls. apply (f_equal length) in Hcalls.
        rewrite length_app in Hcalls. simpl in Hcalls. lia.
      * intros Hnone. apply register_valid.
        by rewrite success_first_message, safeParse_password.
    + rewrite register_run. unfold Spec.validatePassword, Spec.rule_order.
      by destruct (head _).
  - intros name email w. unfold result, after. split_and!.
    + pose proof (register_run
                    {| RegisterFormData.name := name;
                       RegisterFormData.email := email;
                       RegisterFormData.password := Js.units "short1!" |} w)
        as Hrun.
      unfold run in Hrun. by rewrite Hrun.
    + pose proof (register_run
                    {| RegisterFormData.name := name;
                       RegisterFormData.email := email;
                       RegisterFormData.password :=
                         Js.units "alllowercase1!" |} w) as Hrun.
      unfold run in Hrun. by rewrite Hrun.
    + apply (register_valid
               {| RegisterFormData.name := name;
                  RegisterFormData.email := email;
                  RegisterFormData.password := Js.units "Strong1Pass!" |}).
      reflexivity.
Qed.

(** C10. When the password of a registration input fails the complexity
    schema, [register] returns the message of the first failing rule and the
    identity provider's sign-up operation is never invoked: the log of
    sign-up requests, and indeed the whole state of the services, is left as
    it was. *)
Theorem register_validates_before_signUp data w :
  Zod.success
    (Zod.safeParse passwordSchema (RegisterFormData.password data)) = false →
  ∃ m,
    Spec.validatePassword (RegisterFormData.password data) = Some m
    ∧ result (register data) w = Result.failed m
    ∧ signUp_calls (after (register data) w) = signUp_calls w
    ∧ after (register data) w = w.
Proof.
  intros Hfail. destruct (register_invalid data w Hfail) as (m & Hm & Hrun).
  exists m. unfold result, after. unfold run in Hrun. by rewrite Hrun.
Qed.

Lemma register_validates_before_signUp_witness :
  ∃ m,
    Spec.validatePassword (Js.units "short1!") = Some m
    ∧ result
        (register {| RegisterFormData.name := "Ada";
                     RegisterFormData.email := "ada@example.org";
                     RegisterFormData.password := Js.units "short1!" |})
        (scenario anonymous)
      = Result.failed m
    ∧ signUp_calls
        (after
           (register {| RegisterFormData.name := "Ada";
                        RegisterFormData.email := "ada@example.org";
                        RegisterFormData.password := Js.units "short1!" |})
           (scenario anonymous))
      = []
    ∧ after
        (register {| RegisterFormData.name := "Ada";
                     RegisterFormData.email := "ada@example.org";
                     RegisterFormData.password := Js.units "short1!" |})
        (scenario anonymous)
      = scenario anonymous.
Proof.
  apply (register_validates_before_signUp
           {| RegisterFormData.name := "Ada";
              RegisterFormData.email := "ada@example.org";
              RegisterFormData.password := Js.units "short1!" |}
           (scenario anonymous)).
  vm_compute. reflexivity.
Defined.

(** ** The admin gate *)

(** C9. The admin page is a three-way decision on the principal alone: an
    anonymous principal is redirected to "/login", a signed-in principal
    whose role claim is not exactly "admin" is redirected to "/polls", and
    only a principal whose role claim is "admin" gets the admin dashboard;
    the state of the services is left as it was. *)
Theorem AdminPage_routes_by_role w :
  result AdminPage w
  = match AuthResponse.user (session w) with
    | None => redirect "/login"
    | Some x =>
        if decide (User.role x = Js.Str "admin")
        then AdminDashboardClient
        else redirect "/polls"
    end
  ∧ Spec.decision (result AdminPage w) = Spec.routeAdmin (Spec.principal w)
  ∧ after AdminPage w = w.
Proof.
  unfold result, after, AdminPage, mbind, action_bind, auth_getUser,
    Spec.routeAdmin, Spec.principal, Spec.isAdmin; simpl.
  destruct (AuthResponse.user (session w)) as [x|]; [|done].
  destruct (User.role x) as [| |b|z|s]; simpl; try done.
  destruct (String.eqb_spec s "admin") as [->|Hne]; simpl; [done|].
  rewrite !decide_False by congruence. done.
Qed.

(** ** Reading polls *)

#[global] Instance newest_first_total : Total newest_first.
Proof. intros p q. unfold newest_first. lia. Qed.

#[global] Instance newest_first_trans : Transitive newest_first.
Proof. intros p q r. unfold newest_first. lia. Qed.

(** Under the primary key, a stored poll is the only row with its id. *)
Lemma poll_by_id (l : list Poll.t) p q :
  NoDup (Poll.id <$> l) → p ∈ l → q ∈ l → Poll.id q = Poll.id p → q = p.
Proof.
  induction l as [|r l IH]; intros Hnd Hp Hq Hid; [by apply elem_of_nil in Hp|].
  rewrite fmap_cons in Hnd. apply NoDup_cons in Hnd as [Hr Hnd].
  apply elem_of_cons in Hp as [->|Hp], Hq as [->|Hq]; auto.
  - exfalso. apply Hr. rewrite <- Hid. by apply list_elem_of_fmap_2.
  - exfalso. apply Hr. rewrite Hid. by apply list_elem_of_fmap_2.
Qed.

Lemma filter_poll_id (l : list Poll.t) p :
  NoDup (Poll.id <$> l) → p ∈ l →
  filter (λ q, Poll.id q = Poll.id p) l = [p].
Proof.
  induction l as [|r l IH]; intros Hnd Hp; [by apply elem_of_nil in Hp|].
  rewrite fmap_cons in Hnd. apply NoDup_cons in Hnd as [Hr Hnd].
  apply elem_of_cons in Hp as [->|Hp].
  - rewrite filter_cons_True by done. f_equal.
    destruct (filter _ l) as [|q l'] eqn:Hf; [done|].
    assert (q ∈ filter (λ q, Poll.id q = Poll.id r) l) as Hq
      by (rewrite Hf; left).
    apply list_elem_of_filter in Hq as [Hid Hq].
    exfalso. apply Hr. rewrite <- Hid. by apply list_elem_of_fmap_2.
  - rewrite filter_cons_False; [by apply IH|].
    intros Hid. apply Hr. rewrite Hid. by apply list_elem_of_fmap_2.
Qed.

(** Whoever asks, a stored poll is returned when the store answers. *)
Lemma getPollById_found p w :
  NoDup (Poll.id <$> polls w) → p ∈ polls w → fault w = None →
  run (getPollById (Poll.id p)) w
  = ({| PollResult.poll := Some p; PollResult.error := None |}, w).
Proof.
  intros Hnd Hp Hup.
  unfold run, getPollById, mbind, action_bind, polls_select_single.
  by rewrite Hup, filter_poll_id.
Qed.

(** An id no poll has is answered with the store's error for [.single()]. *)
Lemma getPollById_missing id w :
  (∀ p, p ∈ polls w → Poll.id p ≠ id) → fault w = None →
  run (getPollById id) w
  = ({| PollResult.poll := None;
        PollResult.error :=
          Some "JSON object requested, multiple (or no) rows returned" |}, w).
Proof.
  intros Hnone Hup.
  unfold run, getPollById, mbind, action_bind, polls_select_single.
  rewrite Hup.
  destruct (filter _ (polls w)) as [|q l] eqn:Hf; [done|].
  assert (q ∈ filter (λ p, Poll.id p = id) (polls w)) as Hq
    by (rewrite Hf; left).
  apply list_elem_of_filter in Hq as [Hid Hq]. by destruct (Hnone q Hq).
Qed.

(** C1. [getPollById] does not consult the principal.  Poll [p1] is not
    public and belongs to [u1], so neither [u2] nor an anonymous principal
    may read it; both are handed the poll, with a null error, where the
    claim requires the Forbidden failure. *)
Theorem getPollById_discloses_private_poll :
  Spec.canRead (Spec.principal (scenario (signed_in "u2"))) p1 = false
  ∧ result (getPollById "p1") (scenario (signed_in "u2"))
    = {| PollResult.poll := Some p1; PollResult.error := None |}
  ∧ Spec.canRead (Spec.principal (scenario anonymous)) p1 = false
  ∧ result (getPollById "p1") (scenario anonymous)
    = {| PollResult.poll := Some p1; PollResult.error := None |}.
Proof. by vm_compute. Qed.

(** The claim C8 has an anonymous call "not an error"; the result carries
    the error "Not authenticated". *)
Lemma getUserPolls_anonymous_is_an_error :
  Spec.principal (scenario anonymous) = None
  ∧ result getUserPolls (scenario anonymous)
    = {| PollsResult.polls := [];
         PollsResult.error := Some "Not authenticated" |}
  ∧ PollsResult.error (result getUserPolls (scenario anonymous)) ≠ None.
Proof. by vm_compute. Qed.

(** C8, amended. Called by an anonymous principal, [getUserPolls] returns an
    empty sequence together with the error "Not authenticated"; called by a
    signed-in principal while the store answers, it returns, with a null
    error, exactly the polls whose [user_id] is the principal's id, ordered
    by [created_at] descending.  Neither call changes the state. *)
Theorem getUserPolls_owned_newest_first w :
  (AuthResponse.user (session w) = None →
   run getUserPolls w
   = ({| PollsResult.polls := [];
         PollsResult.error := Some "Not authenticated" |}, w))
  ∧ (∀ x, AuthResponse.user (session w) = Some x → fault w = None →
     PollsResult.error (result getUserPolls w) = None
     ∧ PollsResult.polls (result getUserPolls w)
       ≡ₚ filter (λ p, Poll.user_id p = User.id x) (polls w)
     ∧ StronglySorted (λ p q, Poll.created_at q ≤ Poll.created_at p)
         (PollsResult.polls (result getUserPolls w))
     ∧ after getUserPolls w = w).
Proof.
  unfold run, result, after, getUserPolls, mbind, action_bind, auth_getUser,
    polls_select_ordered.
  split.
  - by intros ->.
  - intros x -> ->; simpl. split_and!; [done| |  |done].
    + apply merge_sort_Permutation.
    + apply (StronglySorted_merge_sort newest_first).
Qed.

Lemma getUserPolls_owned_newest_first_witness :
  run getUserPolls (scenario anonymous)
  = ({| PollsResult.polls := [];
        PollsResult.error := Some "Not authenticated" |}, scenario anonymous)
  ∧ PollsResult.error (result getUserPolls (scenario (signed_in "u1"))) = None
  ∧ PollsResult.polls (result getUserPolls (scenario (signed_in "u1")))
    ≡ₚ filter (λ p, Poll.user_id p = "u1") (polls (scenario (signed_in "u1"))).
Proof.
  split.
  - apply (getUserPolls_owned_newest_first (scenario anonymous)).
    reflexivity.
  - destruct (proj2 (getUserPolls_owned_newest_first
                       (scenario (signed_in "u1")))
                {| User.id := "u1"; User.role := Js.Undefined |}
                eq_refl eq_refl) as (He & Hp & _).
    split; [exact He | exact Hp].
Defined.

(** ** Changing polls *)

Lemma set_polls_same w : set_polls (polls w) w = w.
Proof. by destruct w. Qed.

(** The [.eq("user_id", ...)] filter of [updatePoll] matches no row when the
    poll with that id belongs to somebody else. *)
Lemma polls_update_foreign (l : list Poll.t) p uid question options :
  NoDup (Poll.id <$> l) → p ∈ l → uid ≠ Poll.user_id p →
  (λ q, if decide (Poll.id q = Poll.id p ∧ Poll.user_id q = uid)
        then write question options q else q) <$> l = l.
Proof.
  intros Hnd Hp Hne. rewrite <- (list_fmap_id l) at 2.
  apply Forall_fmap_ext_1, Forall_forall. intros q Hq.
  rewrite decide_False; [done|]. intros [Hid Hown].
  apply Hne. by rewrite <- Hown, (poll_by_id l p q Hnd Hp Hq Hid).
Qed.

(** The claim C2 has both calls fail with Forbidden and leave the poll
    stored.  For [u2], who does not own [p1], [updatePoll] reports no error,
    and [deletePoll] reports no error and removes the poll. *)
Lemma non_owner_update_and_delete_succeed :
  Spec.canMutate (Spec.principal (scenario (signed_in "u2"))) p1 = false
  ∧ Result.error
      (result (updatePoll "p1" (form "Worst color?" ["Red"; "Blue"]))
         (scenario (signed_in "u2")))
    = None
  ∧ Result.error (result (deletePoll "p1") (scenario (signed_in "u2")))
    = None
  ∧ polls (after (deletePoll "p1") (scenario (signed_in "u2"))) = [].
Proof. by vm_compute. Qed.

(** C2, amended. For every stored poll [p] and every principal that is not
    its owner, [updatePoll] on [p]'s id leaves the stored poll, and the whole
    state, unchanged, whatever the input; it does not fail with Forbidden.
    Its answer is the validation message when the input is refused;
    otherwise the identity provider's error when there is one; otherwise
    "You must be logged in to update a poll." when nobody is signed in;
    otherwise the store's error when the store fails, and no error at all
    when it answers. *)
Theorem updatePoll_leaves_foreign_poll p formData w :
  NoDup (Poll.id <$> polls w) →
  p ∈ polls w →
  (∀ x, AuthResponse.user (session w) = Some x → User.id x ≠ Poll.user_id p) →
  after (updatePoll (Poll.id p) formData) w = w
  ∧ p ∈ polls (after (updatePoll (Poll.id p) formData) w)
  ∧ Result.error (result (updatePoll (Poll.id p) formData) w)
    = (if rejected (get formData "question")
            (List.filter Js.truthy (getAll formData "options"))
       then Some "Please provide a question and at least two options."
       else
         match AuthResponse.error (session w) with
         | Some userError => Some userError
         | None =>
             match AuthResponse.user (session w) with
             | None => Some "You must be logged in to update a poll."
             | Some _ => fault w
             end
         end)
  ∧ (rejected (get formData "question")
       (List.filter Js.truthy (getAll formData "options")) = false →
     AuthResponse.error (session w) = None →
     is_Some (AuthResponse.user (session w)) →
     fault w = None →
     result (updatePoll (Poll.id p) formData) w = Result.ok).
Proof.
  intros Hnd Hp Hforeign.
  assert (after (updatePoll (Poll.id p) formData) w = w
          ∧ Result.error (result (updatePoll (Poll.id p) formData) w)
            = (if rejected (get formData "question")
                    (List.filter Js.truthy (getAll formData "options"))
               then Some msg_invalid_poll
               else
                 match AuthResponse.error (session w) with
                 | Some userError => Some userError
                 | None =>
                     match AuthResponse.user (session w) with
                     | None => Some "You must be logged in to update a poll."
                     | Some _ => fault w
                     end
                 end))
    as [Hsame Hres].
  { unfold after, result, updatePoll.
    destruct (rejected _ _); [by split|].
    unfold mbind, action_bind, auth_getUser, polls_update.
    destruct (AuthResponse.error (session w)); [by split|].
    destruct (AuthResponse.user (session w)) as [x|] eqn:Hx; simpl;
      [|by split].
    destruct (fault w); simpl; [by split|].
    rewrite (polls_update_foreign _ p) by auto.
    by rewrite set_polls_same. }
  split_and!; [done| by rewrite Hsame |done|].
  intros Hacc Herr [x Hx] Hup.
  rewrite Hacc, Herr, Hx, Hup in Hres.
  by destruct (result (updatePoll (Poll.id p) formData) w) as [[e|]].
Qed.

Lemma updatePoll_leaves_foreign_poll_witness :
  (after (updatePoll "p1" (form "Worst color?" ["Red"; "Blue"]))
     (scenario (signed_in "u2"))
   = scenario (signed_in "u2")
   ∧ p1 ∈ polls (after (updatePoll "p1" (form "Worst color?" ["Red"; "Blue"]))
                   (scenario (signed_in "u2")))
   ∧ result (updatePoll "p1" (form "Worst color?" ["Red"; "Blue"]))
       (scenario (signed_in "u2"))
     = Result.ok)
  ∧ after (updatePoll "p1" (form "Worst color?" ["Red"; "Blue"]))
      (scenario anonymous)
    = scenario anonymous
  ∧ Result.error
      (result (updatePoll "p1" (form "Worst color?" ["Red"; "Blue"]))
         (scenario anonymous))
    = Some "Auth session missing!"
  ∧ Result.error
      (result (updatePoll "p1" (form "" ["Red"; "Blue"]))
         (scenario (signed_in "u2")))
    = Some "Please provide a question and at least two options.".
Proof.
  assert (NoDup (Poll.id <$> [p1])) as Hnd.
  { apply NoDup_singleton. }
  assert (p1 ∈ [p1]) as Hp.
  { apply list_elem_of_singleton. reflexivity. }
  assert (∀ x,
            AuthResponse.user (session (scenario (signed_in "u2"))) = Some x →
            User.id x ≠ Poll.user_id p1) as Hforeign.
  { intros x [= <-]. simpl. discriminate. }
  assert (∀ x,
            AuthResponse.user (session (scenario anonymous)) = Some x →
            User.id x ≠ Poll.user_id p1) as Hanon.
  { intros x Hx. discriminate Hx. }
  destruct (updatePoll_leaves_foreign_poll p1
              (form "Worst color?" ["Red"; "Blue"])
              (scenario (signed_in "u2")) Hnd Hp Hforeign)
    as (Hsame & Hkept & _ & Hres).
  destruct (updatePoll_leaves_foreign_poll p1
              (form "Worst color?" ["Red"; "Blue"])
              (scenario anonymous) Hnd Hp Hanon)
    as (Hsame' & _ & Herr' & _).
  destruct (updatePoll_leaves_foreign_poll p1
              (form "" ["Red"; "Blue"])
              (scenario (signed_in "u2")) Hnd Hp Hforeign)
    as (_ & _ & Herr'' & _).
  split; [|split; [exact Hsame'|split; [exact Herr'|exact Herr'']]].
  split; [exact Hsame|]. split; [exact Hkept|].
  apply Hres; [reflexivity | reflexivity | eexists; reflexivity | reflexivity].
Defined.

(** ** Voting *)

(** What [submitVote] does is what the store does with the insert: the
    option index and the earlier votes are looked at by nobody else. *)
Lemma submitVote_is_the_insert pollId optionIndex w :
  run (submitVote pollId optionIndex) w
  = let '(error, w') :=
      votes_insert pollId (User.id <$> AuthResponse.user (session w))
        optionIndex w in
    ({| Result.error := error |}, w').
Proof.
  unfold run, submitVote, mbind, action_bind, auth_getUser.
  destruct (votes_insert _ _ _ w) as [[e|] w']; done.
Qed.

(** On a table without a uniqueness constraint every vote is stored, for
    whatever poll id, option index and voter, while the store answers. *)
Lemma submitVote_unconstrained pollId optionIndex w :
  votes_unique w = false → fault w = None →
  result (submitVote pollId optionIndex) w = Result.ok
  ∧ votes (after (submitVote pollId optionIndex) w)
    = (votes w ++
         [ {| Vote.id := pretty (serial w);
              Vote.poll_id := pollId;
              Vote.user_id := User.id <$> AuthResponse.user (session w);
              Vote.option_index := optionIndex;
              Vote.created_at := clock w |} ])%list.
Proof.
  intros Hu Hup. unfold result, after.
  pose proof (submitVote_is_the_insert pollId optionIndex w) as Hrun.
  unfold run in Hrun. rewrite Hrun. unfold votes_insert.
  by rewrite Hup, Hu.
Qed.

(** Only a uniqueness constraint of the table itself turns a second vote
    away: where the table has one, the store's error is passed on and no row
    is added. *)
Lemma submitVote_duplicate_refused_by_constraint pollId optionIndex x v w :
  votes_unique w = true → fault w = None →
  AuthResponse.user (session w) = Some x →
  v ∈ votes w → Vote.poll_id v = pollId → Vote.user_id v = Some (User.id x) →
  run (submitVote pollId optionIndex) w
  = (Result.failed "duplicate key value violates unique constraint", w).
Proof.
  intros Hu Hup Hx Hv Hpoll Hvoter.
  rewrite submitVote_is_the_insert. unfold votes_insert.
  rewrite Hup, Hu, Hx; simpl.
  assert (existsb (clashes pollId (Some (User.id x))) (votes w) = true)
    as ->; [|done].
  apply existsb_exists. exists v. split; [by apply list_elem_of_In|].
  unfold clashes. by apply bool_decide_eq_true.
Qed.

(** C3. [submitVote] looks for no earlier vote.  Poll [p1] does not allow
    multiple votes; the signed-in voter [u2] votes twice, on a [votes] table
    without a uniqueness constraint: both calls report no error and two
    votes of [u2] on [p1] are stored, where the claim requires the second
    call to fail with DuplicateVote and to insert nothing. *)
Theorem submitVote_records_a_second_vote :
  allowMultipleVotes (Poll.settings p1) = false
  ∧ result (submitVote "p1" 0) (scenario (signed_in "u2")) = Result.ok
  ∧ result (submitVote "p1" 0)
      (after (submitVote "p1" 0) (scenario (signed_in "u2")))
    = Result.ok
  ∧ filter (λ v, Vote.poll_id v = "p1" ∧ Vote.user_id v = Some "u2")
      (votes (after (submitVote "p1" 0)
                (after (submitVote "p1" 0) (scenario (signed_in "u2")))))
    = [ {| Vote.id := "7"; Vote.poll_id := "p1"; Vote.user_id := Some "u2";
           Vote.option_index := 0; Vote.created_at := 200 |};
        {| Vote.id := "8"; Vote.poll_id := "p1"; Vote.user_id := Some "u2";
           Vote.option_index := 0; Vote.created_at := 201 |} ].
Proof. by vm_compute. Qed.

(** C4. [submitVote] does not compare the option index with the poll's
    options.  Poll [p1] has two options; the votes for option 5 and for
    option -1 are stored and reported without error, where the claim
    requires the InvalidOption failure and no new row. *)
Theorem submitVote_accepts_any_option_index :
  length (Poll.options p1) = 2%nat
  ∧ ¬ Spec.validOptionIndex p1 5
  ∧ result (submitVote "p1" 5) (scenario (signed_in "u2")) = Result.ok
  ∧ votes (after (submitVote "p1" 5) (scenario (signed_in "u2")))
    = [ {| Vote.id := "7"; Vote.poll_id := "p1"; Vote.user_id := Some "u2";
           Vote.option_index := 5; Vote.created_at := 200 |} ]
  ∧ ¬ Spec.validOptionIndex p1 (-1)
  ∧ result (submitVote "p1" (-1)) (scenario (signed_in "u2")) = Result.ok
  ∧ votes (after (submitVote "p1" (-1)) (scenario (signed_in "u2")))
    = [ {| Vote.id := "7"; Vote.poll_id := "p1"; Vote.user_id := Some "u2";
           Vote.option_index := -1; Vote.created_at := 200 |} ].
Proof.
  unfold Spec.validOptionIndex.
  split_and!; try (by vm_compute); simpl; lia.
Qed.




(** ** Poll input *)


(** [.filter(Boolean)] keeps the options that are not the empty string. *)
Lemma filter_truthy (options : list string) :
  List.filter Js.truthy options = filter (λ o, o ≠ "") options.
Proof.
  induction options as [|o options IH]; [done|].
  rewrite filter_cons; cbn [List.filter]. unfold Js.truthy at 1.
  destruct (String.eqb_spec o "") as [->|Hne]; cbn [negb];
    case_decide; rewrite ?IH; done.
Qed.




(** * Further properties of the actions *)

(** ** The password schema *)

Lemma safeParse_password_success candidate :
  Zod.success (Zod.safeParse passwordSchema candidate) = true
  ↔ ∀ r, Spec.satisfies candidate r.
Proof.
  by rewrite success_first_message, safeParse_password, validatePassword_None.
Qed.

(** X1. A failed parse of a password lists every rule the candidate breaks,
    each once and in the order of the schema, not only the first one; a
    successful parse hands the candidate back unchanged. *)
Theorem passwordSchema_lists_every_failing_rule candidate :
  match Zod.safeParse passwordSchema candidate with
  | Zod.Success data =>
      data = candidate ∧ ∀ r, Spec.satisfies candidate r
  | Zod.Failure first rest =>
      Zod.message <$> first :: rest
      = Spec.rule_message <$>
          filter (λ r, ¬ Spec.satisfies candidate r)
            [Spec.Length; Spec.Lowercase; Spec.Uppercase;
             Spec.Digit; Spec.Special]
  end.
Proof.
  pose proof (passwordSchema_issues candidate) as Hiss.
  pose proof (safeParse_password_success candidate) as Hok.
  unfold Zod.safeParse in *.
  destruct (Zod.issues passwordSchema candidate) as [|first rest].
  - split; [done|]. by apply Hok.
  - exact Hiss.
Qed.

Lemma satisfies_mono p q r :
  (∀ c, c ∈ p → c ∈ q) → (length p ≤ length q)%nat →
  Spec.satisfies p r → Spec.satisfies q r.
Proof.
  intros Hsub Hlen.
  destruct r; simpl; rewrite ?Exists_exists; [lia|..];
    intros (c & Hc & HP); exists c; auto.
Qed.

(** X2. Acceptance only depends on which code units occur and on the
    length: a password that contains every code unit of an accepted one and
    is at least as long is accepted too.  In particular nothing is
    forbidden, there is no upper bound on the length, and the order of the
    characters does not matter. *)
Theorem passwordSchema_accepts_extensions p q :
  (∀ c, c ∈ p → c ∈ q) →
  (length p ≤ length q)%nat →
  Zod.success (Zod.safeParse passwordSchema p) = true →
  Zod.success (Zod.safeParse passwordSchema q) = true.
Proof.
  intros Hsub Hlen. rewrite !safeParse_password_success.
  intros Hp r. by apply (satisfies_mono p q).
Qed.

Lemma passwordSchema_accepts_extensions_witness :
  Zod.success
    (Zod.safeParse passwordSchema (Js.units "!ssaP1gnortS and more"))
  = true.
Proof.
  apply (passwordSchema_accepts_extensions (Js.units "Strong1Pass!")).
  - intros c Hc. vm_compute in Hc. vm_compute.
    repeat (apply elem_of_cons in Hc as [->|Hc];
            [repeat constructor|]).
    by apply elem_of_nil in Hc.
  - vm_compute. lia.
  - reflexivity.
Defined.

(** X3. The four character classes of the schema are pairwise disjoint, so
    an accepted password has at least four different code units: a
    lowercase letter, an uppercase letter, a digit and a character that is
    none of these. *)
Theorem passwordSchema_needs_four_characters candidate :
  Zod.success (Zod.safeParse passwordSchema candidate) = true →
  ∃ a b c d,
    a ∈ candidate ∧ b ∈ candidate ∧ c ∈ candidate ∧ d ∈ candidate
    ∧ Spec.lowercase_letter a ∧ Spec.uppercase_letter b
    ∧ Spec.decimal_digit c ∧ Spec.non_alphanumeric d
    ∧ NoDup [a; b; c; d].
Proof.
  rewrite safeParse_password_success. intros Hall.
  pose proof (Hall Spec.Lowercase) as Ha. pose proof (Hall Spec.Uppercase) as Hb.
  pose proof (Hall Spec.Digit) as Hc. pose proof (Hall Spec.Special) as Hd.
  simpl in Ha, Hb, Hc, Hd. rewrite Exists_exists in Ha, Hb, Hc, Hd.
  destruct Ha as (a & Ha & Pa), Hb as (b & Hb & Pb),
    Hc as (c & Hc & Pc), Hd as (d & Hd & Pd).
  exists a, b, c, d. split_and!; try done.
  unfold Spec.non_alphanumeric, Spec.lowercase_letter, Spec.uppercase_letter,
    Spec.decimal_digit in *.
  rewrite !NoDup_cons, !not_elem_of_cons.
  split_and!; try apply not_elem_of_nil; try apply NoDup_nil_2;
    intros ->; lia || tauto.
Qed.

Lemma passwordSchema_needs_four_characters_witness :
  ∃ a b c d,
    a ∈ Js.units "Strong1Pass!" ∧ b ∈ Js.units "Strong1Pass!"
    ∧ c ∈ Js.units "Strong1Pass!" ∧ d ∈ Js.units "Strong1Pass!"
    ∧ Spec.lowercase_letter a ∧ Spec.uppercase_letter b
    ∧ Spec.decimal_digit c ∧ Spec.non_alphanumeric d
    ∧ NoDup [a; b; c; d].
Proof.
  apply (passwordSchema_needs_four_characters (Js.units "Strong1Pass!")).
  reflexivity.
Defined.

(** X4. The password rule of the login form asks for a non-empty password
    only, and reports "Password cannot be empty." otherwise; every password
    the registration schema accepts passes it, so a registered password is
    never refused by the login form. *)
Theorem loginFormSchema_password_weaker candidate :
  (Zod.success (Zod.safeParse loginFormSchema_password candidate) = true
   ↔ candidate ≠ [])
  ∧ Zod.first_message (Zod.safeParse loginFormSchema_password [])
    = Some "Password cannot be empty."
  ∧ (Zod.success (Zod.safeParse passwordSchema candidate) = true →
     Zod.success (Zod.safeParse loginFormSchema_password candidate) = true).
Proof.
  assert (Zod.success (Zod.safeParse loginFormSchema_password candidate)
          = true ↔ candidate ≠ []) as Hlogin.
  { by destruct candidate. }
  split_and!; [done|done|].
  rewrite safeParse_password_success, Hlogin. intros Hall ->.
  specialize (Hall Spec.Length). simpl in Hall. lia.
Qed.

Lemma loginFormSchema_password_weaker_witness :
  Zod.success
    (Zod.safeParse loginFormSchema_password (Js.units "Strong1Pass!"))
  = true.
Proof.
  apply (proj2 (proj2 (loginFormSchema_password_weaker
                         (Js.units "Strong1Pass!")))).
  reflexivity.
Defined.

(** ** Registration, continued *)

(** X5. [register] issues at most one sign-up request, and exactly one when
    the password passes the schema: it carries the submitted e-mail,
    password and name, and the provider's answer is passed on as the result.
    Whatever the input, the session, the tables and the page cache are left
    alone. *)
Theorem register_signs_up_at_most_once data w :
  let valid :=
    Zod.success
      (Zod.safeParse passwordSchema (RegisterFormData.password data)) in
  let request :=
    {| SignUp.email := RegisterFormData.email data;
       SignUp.password := RegisterFormData.password data;
       SignUp.name := RegisterFormData.name data |} in
  signUp_calls (after (register data) w)
  = (signUp_calls w ++ if valid then [request] else [])%list
  ∧ Result.error (result (register data) w)
    = (if valid then fst (auth_signUp request w)
       else Spec.validatePassword (RegisterFormData.password data))
  ∧ session (after (register data) w) = session w
  ∧ polls (after (register data) w) = polls w
  ∧ votes (after (register data) w) = votes w
  ∧ revalidated (after (register data) w) = revalidated w.
Proof.
  simpl. rewrite <- safeParse_password. unfold result, after, register.
  destruct (Zod.safeParse _ _) as [|first rest]; simpl.
  - unfold mbind, action_bind, auth_signUp.
    by destruct (bool_decide _).
  - by rewrite app_nil_r.
Qed.

(** ** Creating polls *)

Lemma falsy_false question :
  Js.falsy question = false → ∃ q, question = Some q ∧ q ≠ "".
Proof.
  destruct question as [q|]; simpl; [|done].
  rewrite String.eqb_neq. by exists q.
Qed.

Lemma rejected_false question options :
  rejected question options = false →
  (∃ q, question = Some q ∧ q ≠ "") ∧ (2 ≤ length options)%nat.
Proof.
  unfold rejected. rewrite orb_false_iff, Nat.ltb_ge.
  intros [Hq Hn]. split; [by apply falsy_false|done].
Qed.

(** X6. [createPoll] is all or nothing.  Either it reports an error and the
    state is exactly as before, or it reports none and then: the caller is
    the signed-in user [getCurrentUser] returns, exactly one poll has been
    appended to the table, owned by that user, with a non-empty question
    and at least two options, none of them empty; the votes are untouched
    and "/polls" has been revalidated once. *)
Theorem createPoll_all_or_nothing formData w :
  (Result.error (result (createPoll formData) w) ≠ None
   ∧ after (createPoll formData) w = w)
  ∨ (Result.error (result (createPoll formData) w) = None
     ∧ ∃ x row,
         result getCurrentUser w = Some x
         ∧ Poll.user_id row = User.id x
         ∧ Poll.question row ≠ ""
         ∧ (2 ≤ length (Poll.options row))%nat
         ∧ Forall (λ o, o ≠ "") (Poll.options row)
         ∧ polls (after (createPoll formData) w) = (polls w ++ [row])%list
         ∧ votes (after (createPoll formData) w) = votes w
         ∧ revalidated (after (createPoll formData) w)
           = (revalidated w ++ ["/polls"])%list).
Proof.
  unfold result, after, createPoll, getCurrentUser.
  destruct (rejected _ _) eqn:Hrej; [by left|].
  apply rejected_false in Hrej as [(q & Hq & Hne) Hlen].
  unfold mbind, action_bind, auth_getUser, polls_insert, revalidatePath.
  destruct (AuthResponse.error (session w)); [by left|].
  destruct (AuthResponse.user (session w)) as [x|]; simpl; [|by left].
  destruct (fault w); simpl; [by left|].
  right. split; [done|].
  exists x,
    {| Poll.id := pretty (serial w); Poll.user_id := User.id x;
       Poll.question := default "" (get formData "question");
       Poll.options := List.filter Js.truthy (getAll formData "options");
       Poll.created_at := clock w; Poll.is_public := false;
       Poll.settings :=
         {| allowMultipleVotes := false; requireAuthentication := false |} |}.
  split_and!; try done.
  - simpl. by rewrite Hq.
  - simpl. rewrite filter_truthy. apply Forall_forall.
    by intros o [Ho _]%list_elem_of_filter.
Qed.

Lemma getPollById_result_found p w :
  NoDup (Poll.id <$> polls w) → p ∈ polls w → fault w = None →
  result (getPollById (Poll.id p)) w
  = {| PollResult.poll := Some p; PollResult.error := None |}.
Proof.
  intros Hnd Hp Hup. pose proof (getPollById_found p w Hnd Hp Hup) as Hrun.
  unfold run in Hrun. unfold result. by rewrite Hrun.
Qed.

(** The state after a successful [createPoll]. *)
Lemma createPoll_accepted formData x w :
  rejected (get formData "question")
    (List.filter Js.truthy (getAll formData "options")) = false →
  session w = {| AuthResponse.user := Some x; AuthResponse.error := None |} →
  fault w = None →
  run (createPoll formData) w
  = (Result.ok,
     set_revalidated (revalidated w ++ ["/polls"])
       (tick
          (set_polls
             (polls w ++
                [ {| Poll.id := pretty (serial w);
                     Poll.user_id := User.id x;
                     Poll.question := default "" (get formData "question");
                     Poll.options :=
                       filter (λ o, o ≠ "") (getAll formData "options");
                     Poll.created_at := clock w;
                     Poll.is_public := false;
                     Poll.settings :=
                       {| allowMultipleVotes := false;
                          requireAuthentication := false |} |} ]) w))).
Proof.
  intros Hacc Hs Hup. unfold run, createPoll. rewrite Hacc.
  unfold mbind, action_bind, auth_getUser, polls_insert, revalidatePath.
  rewrite Hs; simpl. rewrite Hup; simpl. by rewrite filter_truthy.
Qed.

(** X7. Round trip.  When a signed-in user submits a form that passes
    validation, the store answers and the key it hands out is not yet in
    use, [getPollById] for that key then returns the new poll: its question
    is the submitted one, its options are the submitted non-empty options in
    order, and its owner is the caller.  The other polls keep their place
    and primary keys stay unique. *)
Theorem createPoll_then_getPollById formData x w :
  rejected (get formData "question")
    (List.filter Js.truthy (getAll formData "options")) = false →
  session w = {| AuthResponse.user := Some x; AuthResponse.error := None |} →
  fault w = None →
  NoDup (Poll.id <$> polls w) →
  pretty (serial w) ∉ Poll.id <$> polls w →
  ∃ p,
    result (getPollById (pretty (serial w))) (after (createPoll formData) w)
    = {| PollResult.poll := Some p; PollResult.error := None |}
    ∧ Some (Poll.question p) = get formData "question"
    ∧ Poll.options p = filter (λ o, o ≠ "") (getAll formData "options")
    ∧ Poll.user_id p = User.id x
    ∧ NoDup (Poll.id <$> polls (after (createPoll formData) w))
    ∧ ∀ q, q ∈ polls w →
        result (getPollById (Poll.id q)) (after (createPoll formData) w)
        = {| PollResult.poll := Some q; PollResult.error := None |}.
Proof.
  intros Hacc Hs Hup Hnd Hfresh.
  pose proof (createPoll_accepted formData x w Hacc Hs Hup) as Hrun.
  unfold run in Hrun. unfold after. rewrite Hrun; simpl.
  set (w' := set_revalidated _ _).
  assert (fault w' = None) as Hup' by done.
  assert (polls w'
          = (polls w ++
               [ {| Poll.id := pretty (serial w); Poll.user_id := User.id x;
                    Poll.question := default "" (get formData "question");
                    Poll.options :=
                      filter (λ o, o ≠ "") (getAll formData "options");
                    Poll.created_at := clock w; Poll.is_public := false;
                    Poll.settings :=
                      {| allowMultipleVotes := false;
                         requireAuthentication := false |} |} ])%list)
    as Hpolls by done.
  clearbody w'. clear Hrun.
  set (p := {| Poll.id := pretty (serial w); Poll.user_id := User.id x;
               Poll.question := default "" (get formData "question");
               Poll.options :=
                 filter (λ o, o ≠ "") (getAll formData "options");
               Poll.created_at := clock w; Poll.is_public := false;
               Poll.settings :=
                 {| allowMultipleVotes := false;
                    requireAuthentication := false |} |}) in *.
  assert (NoDup (Poll.id <$> polls w')) as Hnd'.
  { rewrite Hpolls, fmap_app. apply NoDup_app. split_and!; [done| |].
    - intros i Hi [->|[]%elem_of_nil]%elem_of_cons. done.
    - apply NoDup_singleton. }
  exists p. split_and!.
  - change (pretty (serial w)) with (Poll.id p).
    apply getPollById_result_found; [done| |done].
    rewrite Hpolls. apply elem_of_app. right. by left.
  - apply rejected_false in Hacc as [(q & Hq & _) _].
    subst p; simpl. by rewrite Hq.
  - done.
  - done.
  - by rewrite Hpolls in Hnd'.
  - intros q Hq. apply getPollById_result_found; [done| |done].
    rewrite Hpolls. apply elem_of_app. by left.
Qed.

Lemma createPoll_then_getPollById_witness :
  ∃ p,
    result (getPollById "7")
      (after (createPoll (form "Best season?" ["Summer"; ""; "Winter"]))
         (scenario (signed_in "u2")))
    = {| PollResult.poll := Some p; PollResult.error := None |}
    ∧ Some (Poll.question p)
      = get (form "Best season?" ["Summer"; ""; "Winter"]) "question"
    ∧ Poll.options p
      = filter (λ o, o ≠ "")
          (getAll (form "Best season?" ["Summer"; ""; "Winter"]) "options")
    ∧ Poll.user_id p = "u2"
    ∧ NoDup
        (Poll.id <$>
           polls
             (after (createPoll (form "Best season?" ["Summer"; ""; "Winter"]))
                (scenario (signed_in "u2"))))
    ∧ ∀ q, q ∈ polls (scenario (signed_in "u2")) →
        result (getPollById (Poll.id q))
          (after (createPoll (form "Best season?" ["Summer"; ""; "Winter"]))
             (scenario (signed_in "u2")))
        = {| PollResult.poll := Some q; PollResult.error := None |}.
Proof.
  apply (createPoll_then_getPollById
           (form "Best season?" ["Summer"; ""; "Winter"])
           {| User.id := "u2"; User.role := Js.Undefined |}
           (scenario (signed_in "u2"))).
  - reflexivity.
  - reflexivity.
  - reflexivity.
  - apply NoDup_singleton.
  - intros Hin. apply list_elem_of_singleton in Hin. discriminate Hin.
Defined.

(** X8. A poll that [createPoll] has stored shows up in its creator's
    [getUserPolls]: the listing then holds the new poll together with the
    polls the creator owned before, and nothing else. *)
Theorem createPoll_then_getUserPolls formData x w :
  rejected (get formData "question")
    (List.filter Js.truthy (getAll formData "options")) = false →
  session w = {| AuthResponse.user := Some x; AuthResponse.error := None |} →
  fault w = None →
  ∃ p,
    polls (after (createPoll formData) w) = (polls w ++ [p])%list
    ∧ Poll.user_id p = User.id x
    ∧ PollsResult.error (result getUserPolls (after (createPoll formData) w))
      = None
    ∧ PollsResult.polls (result getUserPolls (after (createPoll formData) w))
      ≡ₚ p :: PollsResult.polls (result getUserPolls w).
Proof.
  intros Hacc Hs Hup.
  pose proof (createPoll_accepted formData x w Hacc Hs Hup) as Hrun.
  unfold run in Hrun. unfold after. rewrite Hrun; simpl.
  eexists. split; [reflexivity|]. split; [reflexivity|].
  unfold result, getUserPolls, mbind, action_bind, auth_getUser,
    polls_select_ordered; simpl.
  rewrite Hs; simpl. rewrite Hup; simpl. split; [done|].
  rewrite !merge_sort_Permutation, filter_app, filter_cons_True by done.
  rewrite filter_nil. by rewrite <- Permutation_cons_append.
Qed.

Lemma createPoll_then_getUserPolls_witness :
  ∃ p,
    polls (after (createPoll (form "Best season?" ["Summer"; "Winter"]))
             (scenario (signed_in "u1")))
    = (polls (scenario (signed_in "u1")) ++ [p])%list
    ∧ Poll.user_id p = "u1"
    ∧ PollsResult.error
        (result getUserPolls
           (after (createPoll (form "Best season?" ["Summer"; "Winter"]))
              (scenario (signed_in "u1"))))
      = None
    ∧ PollsResult.polls
        (result getUserPolls
           (after (createPoll (form "Best season?" ["Summer"; "Winter"]))
              (scenario (signed_in "u1"))))
      ≡ₚ p :: PollsResult.polls
                (result getUserPolls (scenario (signed_in "u1"))).
Proof.
  apply (createPoll_then_getUserPolls
           (form "Best season?" ["Summer"; "Winter"])
           {| User.id := "u1"; User.role := Js.Undefined |}
           (scenario (signed_in "u1"))).
  - reflexivity.
  - reflexivity.
  - reflexivity.
Defined.

(** ** Updating polls *)

(** The state after [updatePoll] got through to the store. *)
Lemma updatePoll_accepted pollId formData x w :
  rejected (get formData "question")
    (List.filter Js.truthy (getAll formData "options")) = false →
  session w = {| AuthResponse.user := Some x; AuthResponse.error := None |} →
  fault w = None →
  run (updatePoll pollId formData) w
  = (Result.ok,
     set_polls
       ((λ q, if decide (Poll.id q = pollId ∧ Poll.user_id q = User.id x)
              then write (default "" (get formData "question"))
                     (filter (λ o, o ≠ "") (getAll formData "options")) q
              else q) <$> polls w) w).
Proof.
  intros Hacc Hs Hup. unfold run, updatePoll. rewrite Hacc.
  unfold mbind, action_bind, auth_getUser, polls_update.
  rewrite Hs; simpl. rewrite Hup; simpl. by rewrite filter_truthy.
Qed.

(** Overwriting question and options leaves the other columns alone. *)
Lemma fmap_update_column {B} (col : Poll.t → B) (P : Poll.t → Prop)
    `{∀ q, Decision (P q)} question options (l : list Poll.t) :
  (∀ q, col (write question options q) = col q) →
  col <$> ((λ q, if decide (P q) then write question options q else q) <$> l)
  = col <$> l.
Proof.
  intros Hcol. rewrite <- list_fmap_compose.
  apply list_fmap_ext. intros i q _; simpl. by case_decide.
Qed.

(** X9. [updatePoll] never creates, removes, renumbers or hands over a poll:
    whatever the caller, the id and the input, the [id], [user_id] and
    [created_at] columns of the table are as before, every poll with another
    id is untouched, the votes and the page cache are left alone, and a call
    that reports an error has changed nothing at all. *)
Theorem updatePoll_keeps_keys_and_owners pollId formData w :
  Poll.id <$> polls (after (updatePoll pollId formData) w)
  = Poll.id <$> polls w
  ∧ Poll.user_id <$> polls (after (updatePoll pollId formData) w)
    = Poll.user_id <$> polls w
  ∧ Poll.created_at <$> polls (after (updatePoll pollId formData) w)
    = Poll.created_at <$> polls w
  ∧ (∀ q, q ∈ polls w → Poll.id q ≠ pollId →
       q ∈ polls (after (updatePoll pollId formData) w))
  ∧ votes (after (updatePoll pollId formData) w) = votes w
  ∧ revalidated (after (updatePoll pollId formData) w) = revalidated w
  ∧ (Result.error (result (updatePoll pollId formData) w) ≠ None →
     after (updatePoll pollId formData) w = w).
Proof.
  unfold result, after, updatePoll.
  destruct (rejected _ _); [by split_and!|].
  unfold mbind, action_bind, auth_getUser, polls_update.
  destruct (AuthResponse.error (session w)); [by split_and!|].
  destruct (AuthResponse.user (session w)) as [x|]; simpl; [|by split_and!].
  destruct (fault w); simpl; [by split_and!|].
  split_and!; try done.
  - by apply fmap_update_column.
  - by apply fmap_update_column.
  - by apply fmap_update_column.
  - intros q Hq Hne.
    apply (list_elem_of_fmap_2' _ _ q); [done|].
    rewrite decide_False; [done|]. by intros [? _].
Qed.

(** X10. Round trip for the owner.  When the owner of a stored poll submits
    a form that passes validation and the store answers, [updatePoll]
    reports no error and [getPollById] then returns the poll with the
    submitted question and the submitted non-empty options; its id, owner,
    creation time and remaining columns are the old ones. *)
Theorem updatePoll_then_getPollById p formData x w :
  NoDup (Poll.id <$> polls w) →
  p ∈ polls w →
  session w = {| AuthResponse.user := Some x; AuthResponse.error := None |} →
  User.id x = Poll.user_id p →
  rejected (get formData "question")
    (List.filter Js.truthy (getAll formData "options")) = false →
  fault w = None →
  result (updatePoll (Poll.id p) formData) w = Result.ok
  ∧ ∃ p',
      result (getPollById (Poll.id p)) (after (updatePoll (Poll.id p) formData) w)
      = {| PollResult.poll := Some p'; PollResult.error := None |}
      ∧ Some (Poll.question p') = get formData "question"
      ∧ Poll.options p' = filter (λ o, o ≠ "") (getAll formData "options")
      ∧ Poll.id p' = Poll.id p
      ∧ Poll.user_id p' = Poll.user_id p
      ∧ Poll.created_at p' = Poll.created_at p
      ∧ Poll.is_public p' = Poll.is_public p
      ∧ Poll.settings p' = Poll.settings p.
Proof.
  intros Hnd Hp Hs Hown Hacc Hup.
  pose proof (updatePoll_accepted (Poll.id p) formData x w Hacc Hs Hup)
    as Hrun.
  unfold run in Hrun. unfold result at 1, after. rewrite Hrun; simpl.
  split; [done|].
  set (question := default "" (get formData "question")).
  set (options := filter (λ o, o ≠ "") (getAll formData "options")).
  exists (write question options p). split_and!; try done.
  - change (Poll.id p) with (Poll.id (write question options p)) at 1.
    apply getPollById_result_found; [| |done].
    + simpl. by rewrite fmap_update_column.
    + simpl. apply (list_elem_of_fmap_2' _ _ p); [done|].
      by rewrite decide_True.
  - apply rejected_false in Hacc as [(q & Hq & _) _].
    subst question; simpl. by rewrite Hq.
Qed.

Lemma updatePoll_then_getPollById_witness :
  result (updatePoll "p1" (form "Worst color?" ["Green"; ""; "Grey"]))
    (scenario (signed_in "u1"))
  = Result.ok
  ∧ ∃ p',
      result (getPollById "p1")
        (after (updatePoll "p1" (form "Worst color?" ["Green"; ""; "Grey"]))
           (scenario (signed_in "u1")))
      = {| PollResult.poll := Some p'; PollResult.error := None |}
      ∧ Some (Poll.question p')
        = get (form "Worst color?" ["Green"; ""; "Grey"]) "question"
      ∧ Poll.options p'
        = filter (λ o, o ≠ "")
            (getAll (form "Worst color?" ["Green"; ""; "Grey"]) "options")
      ∧ Poll.id p' = "p1"
      ∧ Poll.user_id p' = "u1"
      ∧ Poll.created_at p' = 100
      ∧ Poll.is_public p' = false
      ∧ Poll.settings p' = Poll.settings p1.
Proof.
  apply (updatePoll_then_getPollById p1
           (form "Worst color?" ["Green"; ""; "Grey"])
           {| User.id := "u1"; User.role := Js.Undefined |}
           (scenario (signed_in "u1"))).
  - apply NoDup_singleton.
  - apply list_elem_of_singleton. reflexivity.
  - reflexivity.
  - reflexivity.
  - reflexivity.
  - reflexivity.
Defined.



(** ** Deleting polls *)

(** The state after [deletePoll] got through to the store. *)
Lemma deletePoll_accepted id w :
  fault w = None →
  run (deletePoll id) w
  = (Result.ok,
     set_revalidated (revalidated w ++ ["/polls"])
       (set_polls (filter (λ p, Poll.id p ≠ id) (polls w)) w)).
Proof.
  intros Hup.
  unfold run, deletePoll, mbind, action_bind, polls_delete, revalidatePath.
  by rewrite Hup.
Qed.

Lemma getPollById_result_missing id w :
  (∀ p, p ∈ polls w → Poll.id p ≠ id) → fault w = None →
  result (getPollById id) w
  = {| PollResult.poll := None;
       PollResult.error :=
         Some "JSON object requested, multiple (or no) rows returned" |}.
Proof.
  intros Hnone Hup. pose proof (getPollById_missing id w Hnone Hup) as Hrun.
  unfold run in Hrun. unfold result. by rewrite Hrun.
Qed.

(** X12. While the store answers, [deletePoll] reports no error, removes
    exactly the polls with the given id, keeps the others in their order and
    revalidates "/polls"; afterwards [getPollById] for that id yields no
    poll but the store's error, while every other poll is still returned. *)
Theorem deletePoll_then_getPollById id w :
  fault w = None →
  result (deletePoll id) w = Result.ok
  ∧ polls (after (deletePoll id) w) = filter (λ p, Poll.id p ≠ id) (polls w)
  ∧ revalidated (after (deletePoll id) w)
    = (revalidated w ++ ["/polls"])%list
  ∧ result (getPollById id) (after (deletePoll id) w)
    = {| PollResult.poll := None;
         PollResult.error :=
           Some "JSON object requested, multiple (or no) rows returned" |}
  ∧ (NoDup (Poll.id <$> polls w) →
     ∀ q, q ∈ polls w → Poll.id q ≠ id →
       result (getPollById (Poll.id q)) (after (deletePoll id) w)
       = {| PollResult.poll := Some q; PollResult.error := None |}).
Proof.
  intros Hup. pose proof (deletePoll_accepted id w Hup) as Hrun.
  unfold run in Hrun. unfold result at 1, after. rewrite Hrun; simpl.
  split_and!; try done.
  - apply getPollById_result_missing; [|done]. simpl.
    by intros p [Hne _]%list_elem_of_filter.
  - intros Hnd q Hq Hne. apply getPollById_result_found; [| |done]; simpl.
    + eapply sublist_NoDup; [exact Hnd|].
      apply fmap_sublist, sublist_filter.
    + by apply list_elem_of_filter.
Qed.

Lemma deletePoll_then_getPollById_witness :
  result (deletePoll "p1") (scenario (signed_in "u1")) = Result.ok
  ∧ polls (after (deletePoll "p1") (scenario (signed_in "u1")))
    = filter (λ p, Poll.id p ≠ "p1") (polls (scenario (signed_in "u1")))
  ∧ revalidated (after (deletePoll "p1") (scenario (signed_in "u1")))
    = (revalidated (scenario (signed_in "u1")) ++ ["/polls"])%list
  ∧ result (getPollById "p1")
      (after (deletePoll "p1") (scenario (signed_in "u1")))
    = {| PollResult.poll := None;
         PollResult.error :=
           Some "JSON object requested, multiple (or no) rows returned" |}
  ∧ (NoDup (Poll.id <$> polls (scenario (signed_in "u1"))) →
     ∀ q, q ∈ polls (scenario (signed_in "u1")) → Poll.id q ≠ "p1" →
       result (getPollById (Poll.id q))
         (after (deletePoll "p1") (scenario (signed_in "u1")))
       = {| PollResult.poll := Some q; PollResult.error := None |}).
Proof.
  apply (deletePoll_then_getPollById "p1" (scenario (signed_in "u1"))).
  reflexivity.
Defined.




(** X14. Deleting twice is deleting once: a second [deletePoll] with the
    same id leaves the table as the first one left it, whether or not the
    store answers. *)
Theorem deletePoll_idempotent id w :
  polls (after (deletePoll id) (after (deletePoll id) w))
  = polls (after (deletePoll id) w).
Proof.
  unfold after, deletePoll, mbind, action_bind, polls_delete, revalidatePath.
  destruct (fault w) as [e|] eqn:Hup; simpl; rewrite Hup; simpl; [done|].
  rewrite list_filter_filter. apply list_filter_iff. tauto.
Qed.

(** ** When the store fails *)

(** X15. An error of the store is passed on as it is and nothing happens
    besides: while the store is unreachable with error [e], [getPollById],
    [deletePoll] and [submitVote] report [e] to any caller, and so do
    [getUserPolls] for a signed-in caller and [createPoll] and [updatePoll]
    for a signed-in caller whose input passes validation; no table changes
    and "/polls" is not revalidated. *)
Theorem store_error_is_passed_on e id optionIndex formData w :
  fault w = Some e →
  run (getPollById id) w
  = ({| PollResult.poll := None; PollResult.error := Some e |}, w)
  ∧ run (deletePoll id) w = (Result.failed e, w)
  ∧ run (submitVote id optionIndex) w = (Result.failed e, w)
  ∧ (is_Some (AuthResponse.user (session w)) →
     run getUserPolls w
     = ({| PollsResult.polls := []; PollsResult.error := Some e |}, w))
  ∧ (is_Some (AuthResponse.user (session w)) →
     AuthResponse.error (session w) = None →
     rejected (get formData "question")
       (List.filter Js.truthy (getAll formData "options")) = false →
     run (createPoll formData) w = (Result.failed e, w)
     ∧ run (updatePoll id formData) w = (Result.failed e, w)).
Proof.
  intros Hdown.
  unfold run, getPollById, getUserPolls, deletePoll, submitVote, createPoll,
    updatePoll.
  unfold mbind, action_bind, auth_getUser, polls_select_single,
    polls_select_ordered, polls_delete, votes_insert, polls_insert,
    polls_update.
  split_and!.
  - by rewrite Hdown.
  - by rewrite Hdown.
  - by rewrite Hdown.
  - intros [x ->]; simpl. by rewrite Hdown.
  - intros [x Hx] Herr ->; simpl.
    rewrite Herr, Hx; simpl. by rewrite Hdown.
Qed.

Lemma store_error_is_passed_on_witness :
  run (getPollById "p1") (unreachable (scenario anonymous))
  = ({| PollResult.poll := None; PollResult.error := Some "fetch failed" |},
     unreachable (scenario anonymous))
  ∧ run (deletePoll "p1") (unreachable (scenario anonymous))
    = (Result.failed "fetch failed", unreachable (scenario anonymous))
  ∧ run (submitVote "p1" 0) (unreachable (scenario anonymous))
    = (Result.failed "fetch failed", unreachable (scenario anonymous))
  ∧ run getUserPolls (unreachable (scenario (signed_in "u1")))
    = ({| PollsResult.polls := [];
          PollsResult.error := Some "fetch failed" |},
       unreachable (scenario (signed_in "u1")))
  ∧ run (createPoll (form "Best season?" ["Summer"; "Winter"]))
      (unreachable (scenario (signed_in "u1")))
    = (Result.failed "fetch failed", unreachable (scenario (signed_in "u1")))
  ∧ run (updatePoll "p1" (form "Best season?" ["Summer"; "Winter"]))
      (unreachable (scenario (signed_in "u1")))
    = (Result.failed "fetch failed", unreachable (scenario (signed_in "u1"))).
Proof.
  destruct (store_error_is_passed_on "fetch failed" "p1" 0
              (form "Best season?" ["Summer"; "Winter"])
              (unreachable (scenario anonymous)) eq_refl)
    as (Hget & Hdel & Hvote & _).
  destruct (store_error_is_passed_on "fetch failed" "p1" 0
              (form "Best season?" ["Summer"; "Winter"])
              (unreachable (scenario (signed_in "u1"))) eq_refl)
    as (_ & _ & _ & Hlist & Hwrite).
  split; [exact Hget|]. split; [exact Hdel|]. split; [exact Hvote|].
  split.
  - apply Hlist. eexists. reflexivity.
  - apply Hwrite; [eexists; reflexivity | reflexivity | reflexivity].
Defined.

(** ** Voting, continued *)

(** X16. [submitVote] is all or nothing and append-only.  Either it reports
    an error and the state is exactly as before, or it reports none and
    exactly one vote has been appended after the earlier ones: for the given
    poll id and option index, cast in the name of the user [getCurrentUser]
    returns (null when there is none), never in another name.  The polls
    and the page cache are never touched. *)
Theorem submitVote_all_or_nothing pollId optionIndex w :
  polls (after (submitVote pollId optionIndex) w) = polls w
  ∧ revalidated (after (submitVote pollId optionIndex) w) = revalidated w
  ∧ ((Result.error (result (submitVote pollId optionIndex) w) ≠ None
      ∧ after (submitVote pollId optionIndex) w = w)
     ∨ (Result.error (result (submitVote pollId optionIndex) w) = None
        ∧ ∃ v,
            votes (after (submitVote pollId optionIndex) w)
            = (votes w ++ [v])%list
            ∧ Vote.poll_id v = pollId
            ∧ Vote.option_index v = optionIndex
            ∧ Vote.user_id v = User.id <$> result getCurrentUser w)).
Proof.
  unfold result, after.
  pose proof (submitVote_is_the_insert pollId optionIndex w) as Hrun.
  unfold run in Hrun. rewrite Hrun.
  unfold votes_insert, getCurrentUser, mbind, action_bind, auth_getUser.
  destruct (fault w); simpl; [by split_and!; [..|left]|].
  destruct (votes_unique w && existsb _ (votes w)); simpl.
  - by split_and!; [..|left].
  - split_and!; [done|done|]. right. split; [done|]. by eexists.
Qed.

(** ** The primary key *)

(** X17. No action breaks the primary key of the [polls] table: if the ids
    of the stored polls are pairwise different, they still are after
    [updatePoll], [deletePoll] and [submitVote], whatever their arguments,
    and after [createPoll] provided the key the store hands out is not in
    use. *)
Theorem poll_ids_stay_unique w :
  NoDup (Poll.id <$> polls w) →
  (∀ pollId formData,
     NoDup (Poll.id <$> polls (after (updatePoll pollId formData) w)))
  ∧ (∀ id, NoDup (Poll.id <$> polls (after (deletePoll id) w)))
  ∧ (∀ pollId optionIndex,
       NoDup (Poll.id <$> polls (after (submitVote pollId optionIndex) w)))
  ∧ (∀ formData,
       pretty (serial w) ∉ Poll.id <$> polls w →
       NoDup (Poll.id <$> polls (after (createPoll formData) w))).
Proof.
  intros Hnd. split_and!.
  - intros pollId formData. unfold after, updatePoll.
    destruct (rejected _ _); [done|].
    unfold mbind, action_bind, auth_getUser, polls_update.
    destruct (AuthResponse.error (session w)); [done|].
    destruct (AuthResponse.user (session w)) as [x|]; simpl; [|done].
    destruct (fault w); simpl; [done|].
    by rewrite fmap_update_column.
  - intros id.
    unfold after, deletePoll, mbind, action_bind, polls_delete,
      revalidatePath.
    destruct (fault w); simpl; [done|].
    eapply sublist_NoDup; [exact Hnd|].
    apply fmap_sublist, sublist_filter.
  - intros pollId optionIndex. unfold after.
    pose proof (submitVote_is_the_insert pollId optionIndex w) as Hrun.
    unfold run in Hrun. rewrite Hrun. unfold votes_insert.
    destruct (fault w); simpl; [done|].
    by destruct (votes_unique w && existsb _ (votes w)).
  - intros formData Hfresh. unfold after, createPoll.
    destruct (rejected _ _); [done|].
    unfold mbind, action_bind, auth_getUser, polls_insert, revalidatePath.
    destruct (AuthResponse.error (session w)); [done|].
    destruct (AuthResponse.user (session w)) as [x|]; simpl; [|done].
    destruct (fault w); simpl; [done|].
    rewrite fmap_app. apply NoDup_app. split_and!; [done| |].
    + intros i Hi [->|[]%elem_of_nil]%elem_of_cons. done.
    + apply NoDup_singleton.
Qed.

Lemma poll_ids_stay_unique_witness :
  (∀ pollId formData,
     NoDup (Poll.id <$>
              polls (after (updatePoll pollId formData)
                       (scenario (signed_in "u1")))))
  ∧ (∀ id,
       NoDup (Poll.id <$>
                polls (after (deletePoll id) (scenario (signed_in "u1")))))
  ∧ (∀ pollId optionIndex,
       NoDup (Poll.id <$>
                polls (after (submitVote pollId optionIndex)
                         (scenario (signed_in "u1")))))
  ∧ (∀ formData,
       pretty (serial (scenario (signed_in "u1")))
       ∉ Poll.id <$> polls (scenario (signed_in "u1")) →
       NoDup (Poll.id <$>
                polls (after (createPoll formData)
                         (scenario (signed_in "u1"))))).
Proof.
  apply (poll_ids_stay_unique (scenario (signed_in "u1"))).
  apply NoDup_singleton.
Defined.

(** ** Reading polls, continued *)

(** X18. [getPollById] only reads, and its result is one of two shapes:
    either a poll and a null error, the poll then being a stored one with
    the requested id, or no poll and an error. *)
Theorem getPollById_result_shape id w :
  after (getPollById id) w = w
  ∧ match PollResult.poll (result (getPollById id) w) with
    | Some p =>
        PollResult.error (result (getPollById id) w) = None
        ∧ p ∈ polls w ∧ Poll.id p = id
    | None => PollResult.error (result (getPollById id) w) ≠ None
    end.
Proof.
  unfold result, after, getPollById, mbind, action_bind, polls_select_single.
  destruct (fault w); simpl; [done|].
  destruct (filter _ (polls w)) as [|p [|q l]] eqn:Hf; simpl; try done.
  split; [done|]. split; [done|].
  assert (p ∈ filter (λ p, Poll.id p = id) (polls w)) as Hp
    by (rewrite Hf; left).
  apply list_elem_of_filter in Hp as [Hid Hp]. done.
Qed.

(** ** Callers that are not signed in *)

(** X19. When no user is signed in, an input that passes validation gets
    [createPoll] and [updatePoll] no further than the session check: the
    provider's error is reported if there is one, otherwise "You must be
    logged in to create a poll." and "You must be logged in to update a
    poll."; the store is not called and nothing changes. *)
Theorem poll_writes_need_a_user pollId formData w :
  rejected (get formData "question")
    (List.filter Js.truthy (getAll formData "options")) = false →
  AuthResponse.user (session w) = None →
  run (createPoll formData) w
  = (Result.failed
       (default "You must be logged in to create a poll."
          (AuthResponse.error (session w))), w)
  ∧ run (updatePoll pollId formData) w
    = (Result.failed
         (default "You must be logged in to update a poll."
            (AuthResponse.error (session w))), w).
Proof.
  intros Hacc Hanon. unfold run, createPoll, updatePoll. rewrite Hacc.
  unfold mbind, action_bind, auth_getUser. rewrite Hanon.
  by destruct (AuthResponse.error (session w)).
Qed.

Lemma poll_writes_need_a_user_witness :
  run (createPoll (form "Best season?" ["Summer"; "Winter"]))
    (scenario anonymous)
  = (Result.failed "Auth session missing!", scenario anonymous)
  ∧ run (updatePoll "p1" (form "Best season?" ["Summer"; "Winter"]))
      (scenario anonymous)
    = (Result.failed "Auth session missing!", scenario anonymous).
Proof.
  apply (poll_writes_need_a_user "p1"
           (form "Best season?" ["Summer"; "Winter"]) (scenario anonymous)).
  - reflexivity.
  - reflexivity.
Defined.
